(** * express-openid-connect: the [auth] router factory (src/middleware/auth.js)

    A shallow embedding of the router built by [module.exports] of
    [middleware/auth.js]: the layers it registers, the context middleware,
    the three handlers of the callback route and the access gate, together
    with the properties of the specification that concern them. *)

From Stdlib Require Import ZArith Ascii String List Lia.
From stdpp Require Import base option list gmap strings fin_maps.

Local Open Scope string_scope.
Local Open Scope list_scope.

(** ** JavaScript values

    Configuration entries and claim values are JavaScript values.  Only their
    truthiness and strict equality with a string literal are observed by
    [auth.js]. *)

#[local] Unset Elimination Schemes.
Inductive JVal : Type :=
  | JUndefined
  | JNull
  | JBool (b : bool)
  | JNum (z : Z)
  | JNaN
  | JStr (s : string)
  | JArr (items : list JVal)
  | JObj (fields : list (string * JVal)).
#[local] Set Elimination Schemes.

(** ToBoolean: [false], [0], [NaN], the empty string, [null] and [undefined]
    are falsy, everything else (objects and arrays included) is truthy. *)
Definition truthy (v : JVal) : bool :=
  match v with
  | JUndefined | JNull | JNaN => false
  | JBool b => b
  | JNum z => negb (Z.eqb z 0)
  | JStr s => negb (String.eqb s EmptyString)
  | JArr _ | JObj _ => true
  end.

(** [lit === v] for a string literal [lit]. *)
Definition strict_eq_str (lit : string) (v : JVal) : bool :=
  match v with
  | JStr s => String.eqb lit s
  | _ => false
  end.

(** ** Route paths *)

(** [path.split('')]: the characters of the string, one per element. *)
Definition split_chars (path : string) : list ascii := list_ascii_of_string path.

(** [const enforceLeadingSlash = (path) =>
      '/' === path.split('')[0] ? path : '/' + path;]
    Indexing the empty array yields [undefined], which is not ['/']. *)
Definition enforceLeadingSlash (path : string) : string :=
  match split_chars path !! 0%nat with
  | Some c => if Ascii.eqb "/"%char c then path else String "/"%char path
  | None => String "/"%char path
  end.

(** ** Errors, token sets, sessions *)

(** A thrown JavaScript [Error] object: its [message] and, for the errors of
    [http-errors], its HTTP [status].  Every [throw] reachable from the
    handlers raises an [Error] instance. *)
Record Err : Type := mkErr {
  err_status : option Z;
  err_message : string
}.

(** [createError.BadRequest(msg)]. *)
Definition BadRequest (msg : string) : Err := mkErr (Some 400%Z) msg.

(** The [TypeError] raised by an assignment to a property of [undefined]. *)
Definition TypeError (msg : string) : Err := mkErr None msg.

(** A token set of the OIDC client.  [ts_claims] is the outcome of the method
    [tokenSet.claims()], which returns a fresh mapping on each call or throws
    (no ID token). *)
Record TokenSet : Type := {
  ts_access_token : option string;
  ts_id_token : option string;
  ts_refresh_token : option string;
  ts_claims : Err + gmap string JVal
}.

(** The session object [req[config.appSessionName]]; [sess_claims] is its
    [claims] property. *)
Record Session : Type := {
  sess_claims : option (gmap string JVal)
}.

(** Modelled from the spec: the per-request context [req.openid] of
    [lib/context], which is not part of the sources at hand.  Section 4.3:
    [load()] resolves the client handle and derives [isAuthenticated]. *)
Record RequestContext : Type := {
  ctx_loaded : bool;
  ctx_isAuthenticated : bool
}.

(** ** The request, the response and the continuation

    What a middleware invocation [(req, res, next)] can read and mutate. *)
Record Request : Type := {
  req_cookies : gmap string string;        (* transient cookies, primary name *)
  req_legacy_cookies : gmap string string; (* transient cookies, fallback name *)
  req_params : gmap string string;         (* authorization response parameters *)
  req_openidTokens : option TokenSet;      (* req.openidTokens *)
  req_session : option Session;            (* req[config.appSessionName] *)
  req_openid : option RequestContext;      (* req.openid *)
  req_isAuthenticated : bool               (* req.isAuthenticated is defined *)
}.

Record Response : Type := {
  res_openid : bool;                       (* res.openid is defined *)
  res_cleared : list string;               (* transient entries read and cleared *)
  res_redirect : option string             (* target of res.redirect *)
}.

Record World : Type := {
  req : Request;
  res : Response;
  guard_fired : bool;                      (* state of the once-guard on next *)
  next_calls : list (option Err)           (* invocations of the continuation *)
}.

Definition set_cookies (c : gmap string string) (r : Request) : Request :=
  {| req_cookies := c; req_legacy_cookies := req_legacy_cookies r;
     req_params := req_params r; req_openidTokens := req_openidTokens r;
     req_session := req_session r; req_openid := req_openid r;
     req_isAuthenticated := req_isAuthenticated r |}.

Definition set_legacy_cookies (c : gmap string string) (r : Request) : Request :=
  {| req_cookies := req_cookies r; req_legacy_cookies := c;
     req_params := req_params r; req_openidTokens := req_openidTokens r;
     req_session := req_session r; req_openid := req_openid r;
     req_isAuthenticated := req_isAuthenticated r |}.

Definition set_openidTokens (t : option TokenSet) (r : Request) : Request :=
  {| req_cookies := req_cookies r; req_legacy_cookies := req_legacy_cookies r;
     req_params := req_params r; req_openidTokens := t;
     req_session := req_session r; req_openid := req_openid r;
     req_isAuthenticated := req_isAuthenticated r |}.

Definition set_session (s : option Session) (r : Request) : Request :=
  {| req_cookies := req_cookies r; req_legacy_cookies := req_legacy_cookies r;
     req_params := req_params r; req_openidTokens := req_openidTokens r;
     req_session := s; req_openid := req_openid r;
     req_isAuthenticated := req_isAuthenticated r |}.

Definition set_req_openid (c : option RequestContext) (r : Request) : Request :=
  {| req_cookies := req_cookies r; req_legacy_cookies := req_legacy_cookies r;
     req_params := req_params r; req_openidTokens := req_openidTokens r;
     req_session := req_session r; req_openid := c;
     req_isAuthenticated := req_isAuthenticated r |}.

Definition set_isAuthenticated (b : bool) (r : Request) : Request :=
  {| req_cookies := req_cookies r; req_legacy_cookies := req_legacy_cookies r;
     req_params := req_params r; req_openidTokens := req_openidTokens r;
     req_session := req_session r; req_openid := req_openid r;
     req_isAuthenticated := b |}.

Definition set_res_openid (b : bool) (s : Response) : Response :=
  {| res_openid := b; res_cleared := res_cleared s; res_redirect := res_redirect s |}.

Definition set_cleared (l : list string) (s : Response) : Response :=
  {| res_openid := res_openid s; res_cleared := l; res_redirect := res_redirect s |}.

Definition set_redirect (t : option string) (s : Response) : Response :=
  {| res_openid := res_openid s; res_cleared := res_cleared s; res_redirect := t |}.

Definition with_req (f : Request -> Request) (w : World) : World :=
  {| req := f (req w); res := res w;
     guard_fired := guard_fired w; next_calls := next_calls w |}.

Definition with_res (f : Response -> Response) (w : World) : World :=
  {| req := req w; res := f (res w);
     guard_fired := guard_fired w; next_calls := next_calls w |}.

Definition set_guard_fired (b : bool) (w : World) : World :=
  {| req := req w; res := res w; guard_fired := b; next_calls := next_calls w |}.

Definition set_next_calls (l : list (option Err)) (w : World) : World :=
  {| req := req w; res := res w; guard_fired := guard_fired w; next_calls := l |}.

(** ** The effect monad of a handler body

    A handler body either completes or throws, and mutates the world on the
    way; the mutations made before a [throw] are kept. *)
Definition M (A : Type) : Type := World -> (Err + A) * World.

#[global] Instance M_ret : MRet M := fun A a w => (inr a, w).

#[global] Instance M_bind : MBind M := fun A B f m w =>
  match m w with
  | (inr a, w') => f a w'
  | (inl e, w') => (inl e, w')
  end.

Definition throw {A : Type} (e : Err) : M A := fun w => (inl e, w).

(** [try { body } catch (err) { handler }]. *)
Definition try_catch {A : Type} (body : M A) (handler : Err -> M A) : M A :=
  fun w =>
    match body w with
    | (inl e, w') => handler e w'
    | (inr a, w') => (inr a, w')
    end.

(** A call whose outcome is decided outside the world. *)
Definition call {A : Type} (r : Err + A) : M A := fun w => (r, w).

(** A call that inspects the request. *)
Definition call_req {A : Type} (f : Request -> Err + A) : M A :=
  fun w => (f (req w), w).

Definition modify (f : World -> World) : M unit := fun w => (inr tt, f w).

Definition exec {A : Type} (m : M A) (w : World) : World := (m w).2.

(** ** Configuration and collaborators *)

(** [config.required]: a plain value or a predicate on the request (taken
    as a predicate that returns a value). *)
Inductive RequiredOpt : Type :=
  | RequiredVal (v : JVal)
  | RequiredFun (f : Request -> JVal).

(** What the extension handler [config.handleCallback] does with the
    continuation it is handed (Express's own [next], line 116): the arguments
    of its invocations, in order (none, one or several), and whether it
    answers the request itself. *)
Record Verdict : Type := {
  v_calls : list (option Err);
  v_answered : bool
}.

(** The handler calls [next()] once. *)
Definition VNext : Verdict := {| v_calls := [None]; v_answered := false |}.

(** The handler calls [next(err)] once. *)
Definition VNextErr (e : Err) : Verdict :=
  {| v_calls := [Some e]; v_answered := false |}.

(** The handler answers the request and does not continue. *)
Definition VEnd : Verdict := {| v_calls := []; v_answered := true |}.

(** The handler returns without continuing and without answering. *)
Definition VSilent : Verdict := {| v_calls := []; v_answered := false |}.

Record AuthorizationParams : Type := {
  response_type : JVal;
  response_mode : JVal
}.

Record Config : Type := {
  appSessionSecret : JVal;
  appSessionName : string;
  appSessionDuration : JVal;
  appSessionCookie : JVal;
  authorizationParams : AuthorizationParams;
  baseURL : string;
  routes : JVal;
  loginPath : string;
  logoutPath : string;
  redirectUriPath : string;
  legacySameSiteCookie : bool;
  identityClaimFilter : list string;
  handleCallback : Request -> Response -> Verdict * Request * Response;
  required : RequiredOpt
}.

(** The checks handed to [client.callback]. *)
Record Checks : Type := {
  chk_nonce : option string;
  chk_state : option string;
  chk_response_type : JVal
}.

(** The OIDC client, a black box: [callbackParams(req)] and
    [callback(redirectUri, params, checks)], each returning or throwing. *)
Record OidcClient : Type := {
  callbackParams : Request -> Err + gmap string string;
  callback : string -> gmap string string -> Checks -> Err + TokenSet
}.

(** The collaborators of [lib/context] as the handlers see them:
    [req.openid.client], the outcome of [res.openid.getRedirectUri()], and
    [req.openid.load()], which resolves the client handle and derives the
    authentication state from the session (it yields the loaded context, or
    the rejection). *)
Record Env : Type := {
  client : OidcClient;
  getRedirectUri : Err + string;
  load : option Session -> Err + RequestContext
}.

(** ** Transient store *)

(** Modelled from the spec: the value a transient entry of
    [lib/transientHandler] holds for the request (section 4.1): the primary
    cookie, or in the legacy same-site mode the fallback cookie when the
    primary one is absent. *)
Definition transient_value (legacy : bool) (key : string) (r : Request)
  : option string :=
  match req_cookies r !! key with
  | Some v => Some v
  | None => if legacy then req_legacy_cookies r !! key else None
  end.

(** Modelled from the spec: clearing the backing cookie of [key]
    (section 4.1), both forms in the legacy mode. *)
Definition forget (key : string) (legacy : bool) (r : Request) : Request :=
  let r1 := set_cookies (delete key (req_cookies r)) r in
  if legacy then set_legacy_cookies (delete key (req_legacy_cookies r1)) r1
  else r1.

(** Modelled from the spec: [transient.getOnce] of [lib/transientHandler],
    which is not part of the sources at hand.  Section 4.1: it returns the
    stored value and clears the backing cookie, so that a second call for the
    same name returns [undefined]; in the legacy same-site mode a fallback
    cookie exists per name and both forms are checked (and cleared).  Every
    call is recorded in [res_cleared]. *)
Definition getOnce (key : string) (legacy : bool) : M (option string) :=
  fun w =>
    (inr (transient_value legacy key (req w)),
     with_res (fun s => set_cleared (res_cleared s ++ [key]) s)
       (with_req (forget key legacy) w)).

(** [a || b] where [a] is a string or [undefined] and [b] a string. *)
Definition or_default (a : option string) (b : string) : string :=
  match a with
  | Some s => if String.eqb s EmptyString then b else s
  | None => b
  end.

(** How many times the transient entry [key] has been read and cleared. *)
Definition consumed (key : string) (w : World) : nat :=
  count_occ string_dec (res_cleared (res w)) key.

(** ** Continuations *)

(** Invoking Express's [next]: the invocation is recorded with its argument;
    control returns to the caller (Express traps what downstream handlers
    throw). *)
Definition next (arg : option Err) : M unit :=
  modify (fun w => set_next_calls (next_calls w ++ [arg]) w).

(** [next = cb(next).once()]: a fresh guard around the continuation. *)
Definition cb_once : M unit := modify (set_guard_fired false).

(** Invoking the guarded continuation: the first invocation is forwarded, any
    later one is ignored. *)
Definition next_once (arg : option Err) : M unit :=
  fun w =>
    if guard_fired w then (inr tt, w)
    else next arg (set_guard_fired true w).

(** ** The context middleware (auth.js, lines 40-52) *)

(** Modelled from the spec: [new RequestContext(config, req, res, next)] of
    [lib/context], a context that is not loaded yet. *)
Definition new_RequestContext : RequestContext :=
  {| ctx_loaded := false; ctx_isAuthenticated := false |}.

(** [await req.openid.load()]: on success the loaded context replaces the
    fresh one; a rejection is thrown at the [await]. *)
Definition openid_load (env : Env) : M unit :=
  ctx ← call_req (fun r => load env (req_session r));
  modify (with_req (set_req_openid (Some ctx))).

Definition contextMiddleware (env : Env) : M unit :=
  modify (with_req (set_req_openid (Some new_RequestContext))) ;;
  try_catch (openid_load env) (fun err => next (Some err)) ;;
  modify (with_res (set_res_openid true)) ;;
  modify (with_req (set_isAuthenticated true)) ;;
  next None.

(** [req.isAuthenticated()], once defined, reads [req.openid.isAuthenticated]. *)
Definition isAuthenticated (r : Request) : option bool :=
  if req_isAuthenticated r then ctx_isAuthenticated <$> req_openid r else None.

(** ** The callback route (auth.js, lines 72-121) *)

Inductive Method : Type := GET | POST.

Definition callbackMethod (config : Config) : Method :=
  if strict_eq_str "form_post" (response_mode (authorizationParams config))
  then POST else GET.

(** [config.identityClaimFilter.forEach(claim => { delete identityClaims[claim]; })] *)
Definition filterClaims (filter : list string) (identityClaims : gmap string JVal)
  : gmap string JVal :=
  fold_left (fun claims claim => delete claim claims) filter identityClaims.

(** [req[config.appSessionName].claims = identityClaims]; the assignment
    throws a [TypeError] when the session object is [undefined]. *)
Definition assign_session_claims (identityClaims : gmap string JVal) : M unit :=
  fun w =>
    match req_session (req w) with
    | Some _ =>
        (inr tt, with_req (set_session (Some {| sess_claims := Some identityClaims |})) w)
    | None => (inl (TypeError "Cannot set property 'claims' of undefined"), w)
    end.

(** The exchange handler, lines 80-115. *)
Definition exchange (config : Config) (env : Env) : M unit :=
  cb_once ;;
  try_catch
    (redirectUri ← call (getRedirectUri env);
     let client := client env in
     tokenSet ← try_catch
       (params ← call_req (callbackParams client);
        nonce ← getOnce "nonce" (legacySameSiteCookie config);
        state ← getOnce "state" (legacySameSiteCookie config);
        call (callback client redirectUri params
                {| chk_nonce := nonce; chk_state := state;
                   chk_response_type := response_type (authorizationParams config) |}))
       (fun err => throw (BadRequest (err_message err)));
     modify (with_req (set_openidTokens (Some tokenSet))) ;;
     (if truthy (appSessionSecret config) then
        identityClaims ← call (ts_claims tokenSet);
        assign_session_claims (filterClaims (identityClaimFilter config) identityClaims)
      else mret tt) ;;
     next_once None)
    (fun err => next_once (Some err)).

(** The final handler, lines 117-120. *)
Definition finalize (config : Config) : M unit :=
  returnTo ← getOnce "returnTo" (legacySameSiteCookie config);
  modify (with_res (set_redirect (Some (or_default returnTo (baseURL config))))).

(** Running the extension handler [config.handleCallback] on the world. *)
Definition run_handleCallback (config : Config) (w : World) : Verdict * World :=
  match handleCallback config (req w) (res w) with
  | (v, r, s) => (v, with_res (fun _ => s) (with_req (fun _ => r) w))
  end.

(** How a request leaves the callback route. *)
Inductive RouteOutcome : Type :=
  | Redirected (target : option string)
  | Failed (e : Err)
  | Answered
  | Stalled.

(** Express runs the handlers of the route in order: [next()] moves on to the
    following handler, [next(err)] skips the remaining handlers and hands
    [err] to the error chain.  The first invocation the extension handler
    makes decides whether the final handler runs; a handler that makes none
    has either answered the request or left it without a next step. *)
Definition callbackRoute (config : Config) (env : Env) (w : World)
  : RouteOutcome * World :=
  let w1 := exec (exchange config env) (set_next_calls [] w) in
  match next_calls w1 with
  | [] => (Stalled, w1)
  | Some err :: _ => (Failed err, w1)
  | None :: _ =>
      match run_handleCallback config w1 with
      | (v, w2) =>
          match v_calls v with
          | [] => (if v_answered v then Answered else Stalled, w2)
          | Some err :: _ => (Failed err, w2)
          | None :: _ =>
              let w3 := exec (finalize config) w2 in
              (Redirected (res_redirect (res w3)), w3)
          end
      end
  end.

(** ** The access gate (auth.js, lines 123-133) *)

(** The middleware mounted for the gate: the wrapper around the predicate, or
    [requiresAuthMiddleware] itself. *)
Inductive Gate : Type :=
  | GatePredicate (f : Request -> JVal)
  | GateRequiresAuth.

(** What a gate invocation does, in order: evaluate the predicate (with its
    result), call [next()], call [requiresAuthMiddleware(req, res, next)]. *)
Inductive GateEvent : Type :=
  | EvPredicate (result : JVal)
  | EvNext
  | EvRequiresAuth.

Definition runGate (g : Gate) (r : Request) : list GateEvent :=
  match g with
  | GatePredicate f =>
      let result := f r in
      EvPredicate result ::
        (if negb (truthy result) then [EvNext] else [EvRequiresAuth])
  | GateRequiresAuth => [EvRequiresAuth]
  end.

Definition is_EvPredicate (e : GateEvent) : bool :=
  match e with EvPredicate _ => true | _ => false end.

Definition is_EvRequiresAuth (e : GateEvent) : bool :=
  match e with EvRequiresAuth => true | _ => false end.

(** The authentication requirement is enforced on a request when
    [requiresAuthMiddleware] is run on it. *)
Definition enforced (trace : list GateEvent) : bool :=
  existsb is_EvRequiresAuth trace.

Definition predicate_evaluations (trace : list GateEvent) : nat :=
  length (List.filter is_EvPredicate trace).

(** ** The router *)

Inductive Handler : Type :=
  | H_urlencoded
  | H_cookieParser
  | H_login
  | H_logout
  | H_exchange
  | H_handleCallback
  | H_finalize.

(** What [router.use] and [router.get]/[router.post] register. *)
Inductive Layer : Type :=
  | Use_appSession (name : string) (secret duration cookieOptions : JVal)
  | Use_context
  | Route (method : Method) (path : string) (handlers : list Handler)
  | Use_gate (g : Gate).

(** ToBoolean of [config.required]: a function is an object, hence truthy. *)
Definition truthy_required (r : RequiredOpt) : bool :=
  match r with
  | RequiredVal v => truthy v
  | RequiredFun _ => true
  end.

Definition gateLayers (config : Config) : list Layer :=
  if truthy_required (required config) then
    match required config with
    | RequiredFun f => [Use_gate (GatePredicate f)]
    | RequiredVal _ => [Use_gate GateRequiresAuth]
    end
  else [].

Definition callbackHandlers : list Handler :=
  [H_urlencoded; H_cookieParser; H_exchange; H_handleCallback; H_finalize].

(** The registrations made by [module.exports], in order. *)
Definition routerLayers (config : Config) : list Layer :=
  (if truthy (appSessionSecret config)
   then [Use_appSession (appSessionName config) (appSessionSecret config)
           (appSessionDuration config) (appSessionCookie config)]
   else []) ++
  [Use_context] ++
  (if truthy (routes config)
   then [Route GET (enforceLeadingSlash (loginPath config)) [H_urlencoded; H_login];
         Route GET (enforceLeadingSlash (logoutPath config)) [H_logout]]
   else []) ++
  [Route (callbackMethod config) (enforceLeadingSlash (redirectUriPath config))
     callbackHandlers] ++
  gateLayers config.

(** [module.exports]: [getClient(config)] runs last and makes the factory fail
    on an invalid configuration; otherwise the router is returned. *)
Definition auth (getClient : Config -> option Err) (config : Config)
  : Err + list Layer :=
  match getClient config with
  | Some err => inl err
  | None => inr (routerLayers config)
  end.

Definition is_appSession (l : Layer) : bool :=
  match l with Use_appSession _ _ _ _ => true | _ => false end.

Definition is_callbackRoute (l : Layer) : bool :=
  match l with
  | Route _ _ handlers => existsb (fun h => match h with H_exchange => true | _ => false end) handlers
  | _ => false
  end.

Definition is_gate (l : Layer) : bool :=
  match l with Use_gate _ => true | _ => false end.

(** The paths registered on the router. *)
Definition registeredPaths (layers : list Layer) : list string :=
  flat_map (fun l => match l with Route _ p _ => [p] | _ => [] end) layers.

(** ** A concrete deployment

    The scenarios of the specification (section 8): stored state [S1] and
    nonce [N1], claims [{sub, email}], exclusion list [["email"]]. *)

Definition sample_claims : gmap string JVal :=
  <["sub" := JStr "u1"]> (<["email" := JStr "a@b.com"]> ∅).

Definition sample_tokenSet : TokenSet :=
  {| ts_access_token := Some "at"; ts_id_token := Some "idt";
     ts_refresh_token := None; ts_claims := inr sample_claims |}.

(** A client that parses the parameters off the request and rejects a
    response whose [state] differs from the expected one. *)
Definition sample_client : OidcClient :=
  {| callbackParams := fun r => inr (req_params r);
     callback := fun _ params checks =>
       if decide (params !! "state" = chk_state checks)
       then inr sample_tokenSet
       else inl (mkErr None "state mismatch") |}.

(** A client whose parameter parsing throws. *)
Definition unparsable_client : OidcClient :=
  {| callbackParams := fun _ => inl (mkErr None "invalid request method");
     callback := callback sample_client |}.

Definition sample_load (s : option Session) : Err + RequestContext :=
  inr {| ctx_loaded := true;
         ctx_isAuthenticated :=
           match s with
           | Some {| sess_claims := Some _ |} => true
           | _ => false
           end |}.

Definition sample_env : Env :=
  {| client := sample_client;
     getRedirectUri := inr "https://app.example/callback";
     load := sample_load |}.

Definition unparsable_env : Env :=
  {| client := unparsable_client;
     getRedirectUri := inr "https://app.example/callback";
     load := sample_load |}.

(** An environment whose context load rejects. *)
Definition undiscovered_env : Env :=
  {| client := sample_client;
     getRedirectUri := inr "https://app.example/callback";
     load := fun _ => inl (mkErr None "issuer discovery failed") |}.

Definition sample_config : Config :=
  {| appSessionSecret := JStr "a long, randomly generated secret";
     appSessionName := "identity";
     appSessionDuration := JNum 604800;
     appSessionCookie := JObj [];
     authorizationParams :=
       {| response_type := JStr "id_token"; response_mode := JStr "form_post" |};
     baseURL := "https://app.example";
     routes := JBool true;
     loginPath := "/login";
     logoutPath := "/logout";
     redirectUriPath := "callback";
     legacySameSiteCookie := false;
     identityClaimFilter := ["email"];
     handleCallback := fun r s => (VNext, r, s);
     required := RequiredVal (JBool true) |}.

(** The same deployment without a session secret and with the gate off. *)
Definition sessionless_config : Config :=
  {| appSessionSecret := JBool false;
     appSessionName := appSessionName sample_config;
     appSessionDuration := appSessionDuration sample_config;
     appSessionCookie := appSessionCookie sample_config;
     authorizationParams :=
       {| response_type := JStr "code"; response_mode := JUndefined |};
     baseURL := baseURL sample_config;
     routes := routes sample_config;
     loginPath := loginPath sample_config;
     logoutPath := logoutPath sample_config;
     redirectUriPath := redirectUriPath sample_config;
     legacySameSiteCookie := false;
     identityClaimFilter := identityClaimFilter sample_config;
     handleCallback := handleCallback sample_config;
     required := RequiredVal (JBool false) |}.

(** The gate is decided per request: only requests carrying an [api]
    parameter are gated. *)
Definition api_only (r : Request) : JVal :=
  match req_params r !! "api" with
  | Some v => JStr v
  | None => JUndefined
  end.

Definition predicate_config : Config :=
  {| appSessionSecret := appSessionSecret sample_config;
     appSessionName := appSessionName sample_config;
     appSessionDuration := appSessionDuration sample_config;
     appSessionCookie := appSessionCookie sample_config;
     authorizationParams := authorizationParams sample_config;
     baseURL := baseURL sample_config;
     routes := routes sample_config;
     loginPath := loginPath sample_config;
     logoutPath := logoutPath sample_config;
     redirectUriPath := redirectUriPath sample_config;
     legacySameSiteCookie := false;
     identityClaimFilter := identityClaimFilter sample_config;
     handleCallback := handleCallback sample_config;
     required := RequiredFun api_only |}.

Definition callback_request (state returnTo : option string) : Request :=
  {| req_cookies :=
       let c := <["nonce" := "N1"]> (<["state" := "S1"]> ∅) in
       match returnTo with Some t => <["returnTo" := t]> c | None => c end;
     req_legacy_cookies := ∅;
     req_params :=
       let p := <["code" := "abc"]> ∅ in
       match state with Some s => <["state" := s]> p | None => p end;
     req_openidTokens := None;
     req_session := Some {| sess_claims := None |};
     req_openid := Some {| ctx_loaded := true; ctx_isAuthenticated := false |};
     req_isAuthenticated := true |}.

Definition fresh_response : Response :=
  {| res_openid := true; res_cleared := []; res_redirect := None |}.

Definition callback_world (state returnTo : option string) : World :=
  {| req := callback_request state returnTo; res := fresh_response;
     guard_fired := false; next_calls := [] |}.

(** ** Statements of the specification, in its own terms *)

(** The specification's wording of the path normalization: [p] itself when
    its first character is a slash, a slash prepended otherwise. *)
Definition starts_with_slash (p : string) : bool :=
  match p with
  | String c _ => Ascii.eqb c "/"%char
  | EmptyString => false
  end.

Definition normalized_path (p : string) : string :=
  if starts_with_slash p then p else String "/"%char p.

(** The route paths of the configuration, in registration order. *)
Definition configuredPaths (config : Config) : list string :=
  (if truthy (routes config) then [loginPath config; logoutPath config] else []) ++
  [redirectUriPath config].

(** The checks the exchange handler builds from the transient entries of the
    incoming request. *)
Definition expected_checks (config : Config) (r : Request) : Checks :=
  {| chk_nonce := transient_value (legacySameSiteCookie config) "nonce" r;
     chk_state := transient_value (legacySameSiteCookie config) "state" r;
     chk_response_type := response_type (authorizationParams config) |}.

(** Callback-parameter parsing or callback validation throws [err]. *)
Definition validation_throws (config : Config) (env : Env) (uri : string)
    (r : Request) (err : Err) : Prop :=
  callbackParams (client env) r = inl err \/
  exists params,
    callbackParams (client env) r = inr params /\
    callback (client env) uri params (expected_checks config r) = inl err.

(** The extension handler does not itself consume transient entries. *)
Definition handler_keeps_transients (config : Config) : Prop :=
  forall r s, res_cleared (handleCallback config r s).2 = res_cleared s.

(** The extension handler leaves the session object alone. *)
Definition handler_keeps_session (config : Config) : Prop :=
  forall r s, req_session (handleCallback config r s).1.2 = req_session r.

(** The world in which the final handler of the callback route starts. *)
Definition finalize_entry (config : Config) (env : Env) (w : World) : World :=
  (run_handleCallback config (exec (exchange config env) (set_next_calls [] w))).2.

(** The redirect target the final handler computes from the stored
    [returnTo]: the stored value unless it is absent or empty. *)
Definition redirect_target (config : Config) (r : Request) : string :=
  or_default (transient_value (legacySameSiteCookie config) "returnTo" r)
    (baseURL config).

(** Invoking the guarded continuation once per element of [args]. *)
Fixpoint next_once_all (args : list (option Err)) : M unit :=
  match args with
  | [] => mret tt
  | a :: rest => next_once a ;; next_once_all rest
  end.

Definition reaches_finalize (outcome : RouteOutcome) : bool :=
  match outcome with
  | Redirected _ => true
  | _ => false
  end.

(** The exchange handler gets as far as reading the transient entries: the
    redirect URI is resolved and the callback parameters parse. *)
Definition reaches_exchange (env : Env) (r : Request) : bool :=
  match getRedirectUri env, callbackParams (client env) r with
  | inr _, inr _ => true
  | _, _ => false
  end.

(** The specification's wording of the final redirect: the stored [returnTo]
    value, or the base URL when none was stored. *)
Definition returnTo_or_base (stored : option string) (base : string) : string :=
  match stored with
  | Some v => v
  | None => base
  end.

(** ** Further vocabulary for the router and the exchange *)

Definition has_handler (h : Handler) (l : Layer) : bool :=
  match l with
  | Route _ _ handlers =>
      existsb (fun h' =>
                 match h, h' with
                 | H_urlencoded, H_urlencoded | H_cookieParser, H_cookieParser
                 | H_login, H_login | H_logout, H_logout
                 | H_exchange, H_exchange | H_handleCallback, H_handleCallback
                 | H_finalize, H_finalize => true
                 | _, _ => false
                 end) handlers
  | _ => false
  end.

Definition is_route (l : Layer) : bool :=
  match l with Route _ _ _ => true | _ => false end.

(** The token set the client's validation returns for the request, if the
    exchange handler gets that far and the client accepts the response. *)
Definition validated (config : Config) (env : Env) (r : Request) : option TokenSet :=
  match getRedirectUri env with
  | inl _ => None
  | inr uri =>
      match callbackParams (client env) r with
      | inl _ => None
      | inr params =>
          match callback (client env) uri params (expected_checks config r) with
          | inl _ => None
          | inr tokenSet => Some tokenSet
          end
      end
  end.

(** ** The continuation of the extension handler *)

(** What Express does with one invocation of the continuation handed to the
    extension handler.  The handlers of a route share one position in the
    route's stack: the first invocation, when it carries no error, runs the
    final handler; every other invocation finds the stack exhausted (or, with
    an error, skips the final handler) and leaves the route with its argument
    for the rest of the router. *)
Inductive Dispatch : Type :=
  | RunsFinalize
  | LeavesRoute (arg : option Err).

Definition dispatch_calls (calls : list (option Err)) : list Dispatch :=
  match calls with
  | [] => []
  | None :: rest => RunsFinalize :: map LeavesRoute rest
  | Some err :: rest => LeavesRoute (Some err) :: map LeavesRoute rest
  end.

(** The invocations the extension handler makes of its continuation during a
    callback request; the handler does not run when the exchange handler
    hands an error on. *)
Definition extension_calls (config : Config) (env : Env) (w : World)
  : list (option Err) :=
  let w1 := exec (exchange config env) (set_next_calls [] w) in
  match next_calls w1 with
  | None :: _ => v_calls (handleCallback config (req w1) (res w1)).1.1
  | _ => []
  end.

Definition extension_dispatches (config : Config) (env : Env) (w : World)
  : list Dispatch :=
  dispatch_calls (extension_calls config env w).

(** ** Further concrete deployments *)

Definition with_handleCallback
    (h : Request -> Response -> Verdict * Request * Response) (config : Config)
  : Config :=
  {| appSessionSecret := appSessionSecret config;
     appSessionName := appSessionName config;
     appSessionDuration := appSessionDuration config;
     appSessionCookie := appSessionCookie config;
     authorizationParams := authorizationParams config;
     baseURL := baseURL config;
     routes := routes config;
     loginPath := loginPath config;
     logoutPath := logoutPath config;
     redirectUriPath := redirectUriPath config;
     legacySameSiteCookie := legacySameSiteCookie config;
     identityClaimFilter := identityClaimFilter config;
     handleCallback := h;
     required := required config |}.

(** An extension handler that calls [next()] twice. *)
Definition twice_config : Config :=
  with_handleCallback
    (fun r s => ({| v_calls := [None; None]; v_answered := false |}, r, s))
    sample_config.

(** An extension handler that returns without calling [next] and without
    answering. *)
Definition silent_config : Config :=
  with_handleCallback (fun r s => (VSilent, r, s)) sample_config.


(** A token set without an ID token: [claims()] throws. *)
Definition opaque_tokenSet : TokenSet :=
  {| ts_access_token := Some "at"; ts_id_token := None;
     ts_refresh_token := Some "rt";
     ts_claims := inl (mkErr None "id_token not present in TokenSet") |}.

(** A client of the code flow that returns an access token only. *)
Definition code_flow_client : OidcClient :=
  {| callbackParams := fun r => inr (req_params r);
     callback := fun _ _ _ => inr opaque_tokenSet |}.

Definition code_flow_env : Env :=
  {| client := code_flow_client;
     getRedirectUri := inr "https://app.example/callback";
     load := sample_load |}.

(** An environment in which the redirect URI cannot be computed. *)
Definition unresolved_env : Env :=
  {| client := sample_client;
     getRedirectUri := inl (mkErr (Some 500%Z) "no redirect URI");
     load := sample_load |}.

(** A callback request that no session middleware has prepared. *)
Definition unprepared_world (state returnTo : option string) : World :=
  with_req (set_session None) (callback_world state returnTo).

(** The deployment with its built-in login and logout routes switched off. *)
Definition routeless_config : Config :=
  {| appSessionSecret := appSessionSecret sample_config;
     appSessionName := appSessionName sample_config;
     appSessionDuration := appSessionDuration sample_config;
     appSessionCookie := appSessionCookie sample_config;
     authorizationParams := authorizationParams sample_config;
     baseURL := baseURL sample_config;
     routes := JBool false;
     loginPath := loginPath sample_config;
     logoutPath := logoutPath sample_config;
     redirectUriPath := redirectUriPath sample_config;
     legacySameSiteCookie := false;
     identityClaimFilter := identityClaimFilter sample_config;
     handleCallback := handleCallback sample_config;
     required := required sample_config |}.

(** * Properties *)

Example enforceLeadingSlash_login : enforceLeadingSlash "login" = "/login".
Proof. reflexivity. Qed.

Example enforceLeadingSlash_callback : enforceLeadingSlash "/callback" = "/callback".
Proof. reflexivity. Qed.

Example scenario2 :
  let '(out, w) := callbackRoute sample_config sample_env
                     (callback_world (Some "S1") (Some "/dashboard")) in
  out = Redirected (Some "/dashboard") /\
  (req_session (req w) ≫= sess_claims) = Some (<["sub" := JStr "u1"]> ∅) /\
  res_cleared (res w) = ["nonce"; "state"; "returnTo"].
Proof. vm_compute. auto. Qed.

Example scenario3 :
  let '(out, w) := callbackRoute sample_config sample_env
                     (callback_world (Some "WRONG") (Some "/dashboard")) in
  out = Failed (BadRequest "state mismatch") /\
  (req_session (req w) ≫= sess_claims) = None /\
  res_cleared (res w) = ["nonce"; "state"].
Proof. vm_compute. auto. Qed.

(** ** Path normalization *)

Lemma enforceLeadingSlash_normalized (p : string) :
  enforceLeadingSlash p = normalized_path p.
Proof.
  unfold enforceLeadingSlash, normalized_path, split_chars.
  destruct p as [|c rest]; simpl; [reflexivity|].
  rewrite Ascii.eqb_sym. reflexivity.
Qed.

Lemma enforceLeadingSlash_head (p : string) :
  exists rest, enforceLeadingSlash p = String "/"%char rest.
Proof.
  rewrite enforceLeadingSlash_normalized. unfold normalized_path.
  destruct p as [|c rest]; simpl; [eauto|].
  destruct (Ascii.eqb c "/") eqn:E; [|eauto].
  apply Ascii.eqb_eq in E. subst c. eauto.
Qed.

Lemma enforceLeadingSlash_idem (p : string) :
  enforceLeadingSlash (enforceLeadingSlash p) = enforceLeadingSlash p.
Proof.
  destruct (enforceLeadingSlash_head p) as [rest E]. rewrite E. reflexivity.
Qed.

Lemma registeredPaths_app (l1 l2 : list Layer) :
  registeredPaths (l1 ++ l2) = registeredPaths l1 ++ registeredPaths l2.
Proof. unfold registeredPaths. apply flat_map_app. Qed.

Lemma registeredPaths_gate (config : Config) :
  registeredPaths (gateLayers config) = [].
Proof.
  unfold gateLayers. destruct (required config) as [v|f]; [|reflexivity].
  simpl. destruct (truthy v); reflexivity.
Qed.

Lemma registeredPaths_router (config : Config) :
  registeredPaths (routerLayers config) =
  map enforceLeadingSlash (configuredPaths config).
Proof.
  unfold routerLayers, configuredPaths.
  rewrite !registeredPaths_app, registeredPaths_gate.
  destruct (truthy (appSessionSecret config)), (truthy (routes config));
    reflexivity.
Qed.

(** C9: every configured route path [p] is registered as [p] itself when its
    first character is a slash and as a slash followed by [p] otherwise;
    every registered path begins with a slash, the normalization is
    idempotent, and the empty string is mapped to the one-slash path. *)
Theorem enforceLeadingSlash_spec :
  (forall config,
     registeredPaths (routerLayers config) =
     map enforceLeadingSlash (configuredPaths config)) /\
  (forall p, enforceLeadingSlash p = if starts_with_slash p then p else String "/"%char p) /\
  (forall config p, In p (registeredPaths (routerLayers config)) ->
     starts_with_slash p = true) /\
  (forall p, enforceLeadingSlash (enforceLeadingSlash p) = enforceLeadingSlash p) /\
  enforceLeadingSlash EmptyString = "/".
Proof.
  split; [exact registeredPaths_router|].
  split; [exact enforceLeadingSlash_normalized|].
  split; [|split; [exact enforceLeadingSlash_idem|reflexivity]].
  intros config p Hin. rewrite registeredPaths_router in Hin.
  apply in_map_iff in Hin. destruct Hin as (q & <- & _).
  destruct (enforceLeadingSlash_head q) as [rest ->]. reflexivity.
Qed.

Lemma enforceLeadingSlash_spec_witness :
  starts_with_slash (enforceLeadingSlash "callback") = true.
Proof.
  apply (proj1 (proj2 (proj2 enforceLeadingSlash_spec)) sample_config).
  simpl. auto.
Defined.

(** ** The callback route registration *)

(** The factory returns the router unless the client cannot be built. *)
Lemma auth_router getClient config layers :
  auth getClient config = inr layers ->
  getClient config = None /\ layers = routerLayers config.
Proof.
  unfold auth. destruct (getClient config); [discriminate|].
  intros H. injection H as <-. auto.
Qed.


Lemma filter_callbackRoute_gate (config : Config) :
  List.filter is_callbackRoute (gateLayers config) = [].
Proof.
  unfold gateLayers. destruct (required config) as [v|f]; [|reflexivity].
  simpl. destruct (truthy v); reflexivity.
Qed.

Lemma callbackMethod_POST (config : Config) :
  callbackMethod config = POST <->
  response_mode (authorizationParams config) = JStr "form_post".
Proof.
  unfold callbackMethod, strict_eq_str.
  destruct (response_mode (authorizationParams config)) as [| |b|z| |s|l|l];
    try (split; discriminate).
  destruct (String.eqb "form_post" s) eqn:E.
  - apply String.eqb_eq in E. subst s. split; reflexivity.
  - apply String.eqb_neq in E. split; [discriminate|].
    intros H. injection H as ->. contradiction.
Qed.

(** C5: the router holds exactly one callback route; its method is POST if
    and only if [response_mode] is the string [form_post], and GET for every
    other value of [response_mode]. *)
Theorem callback_route_method (config : Config) :
  List.filter is_callbackRoute (routerLayers config) =
    [Route (callbackMethod config) (enforceLeadingSlash (redirectUriPath config))
       callbackHandlers] /\
  (callbackMethod config = POST <->
     response_mode (authorizationParams config) = JStr "form_post") /\
  (callbackMethod config = GET <->
     response_mode (authorizationParams config) <> JStr "form_post").
Proof.
  split; [|split; [apply callbackMethod_POST|]].
  - unfold routerLayers. rewrite !List.filter_app, filter_callbackRoute_gate.
    destruct (truthy (appSessionSecret config)), (truthy (routes config));
      reflexivity.
  - rewrite <- callbackMethod_POST.
    destruct (callbackMethod config); split; congruence.
Qed.

(** ** The access gate *)

Lemma filter_gate_router (config : Config) :
  List.filter is_gate (routerLayers config) = gateLayers config.
Proof.
  unfold routerLayers. rewrite !List.filter_app.
  assert (List.filter is_gate (gateLayers config) = gateLayers config) as ->.
  { unfold gateLayers. destruct (required config) as [v|f]; [|reflexivity].
    simpl. destruct (truthy v); reflexivity. }
  destruct (truthy (appSessionSecret config)), (truthy (routes config));
    reflexivity.
Qed.

Lemma runGate_predicate (f : Request -> JVal) (r : Request) :
  (enforced (runGate (GatePredicate f) r) = true <-> truthy (f r) = true) /\
  predicate_evaluations (runGate (GatePredicate f) r) = 1 /\
  List.filter is_EvPredicate (runGate (GatePredicate f) r) = [EvPredicate (f r)].
Proof.
  unfold runGate, enforced, predicate_evaluations.
  destruct (truthy (f r)); simpl; intuition congruence.
Qed.

(** C7: the gate is three-way.  A falsy [required] mounts no gate middleware;
    a function mounts one wrapper that, on each request, evaluates the
    predicate once and enforces the authentication requirement if and only if
    the result is truthy; any other truthy value mounts
    [requiresAuthMiddleware] itself, which is enforced on every request. *)
Theorem access_gate_three_way (config : Config) :
  (truthy_required (required config) = false ->
     List.filter is_gate (routerLayers config) = []) /\
  (forall f, required config = RequiredFun f ->
     List.filter is_gate (routerLayers config) = [Use_gate (GatePredicate f)] /\
     forall r : Request,
       (enforced (runGate (GatePredicate f) r) = true <-> truthy (f r) = true) /\
       predicate_evaluations (runGate (GatePredicate f) r) = 1) /\
  (truthy_required (required config) = true ->
   (forall f, required config <> RequiredFun f) ->
     List.filter is_gate (routerLayers config) = [Use_gate GateRequiresAuth] /\
     forall r : Request, enforced (runGate GateRequiresAuth r) = true).
Proof.
  rewrite filter_gate_router. unfold gateLayers.
  split; [|split].
  - intros ->. reflexivity.
  - intros f ->. split; [reflexivity|].
    intros r. destruct (runGate_predicate f r) as (H1 & H2 & _). auto.
  - intros -> Hnf. destruct (required config) as [v|f].
    + split; reflexivity.
    + exfalso. apply (Hnf f). reflexivity.
Qed.

Lemma access_gate_three_way_witness :
  List.filter is_gate (routerLayers sessionless_config) = [] /\
  List.filter is_gate (routerLayers predicate_config) =
    [Use_gate (GatePredicate api_only)] /\
  List.filter is_gate (routerLayers sample_config) = [Use_gate GateRequiresAuth].
Proof.
  split; [|split].
  - apply (proj1 (access_gate_three_way sessionless_config)). reflexivity.
  - apply (proj1 (proj2 (access_gate_three_way predicate_config)) api_only).
    reflexivity.
  - apply (proj2 (proj2 (access_gate_three_way sample_config))).
    + reflexivity.
    + discriminate.
Defined.

(** The wrapper lets an ungated request through with [next()] and hands a
    gated one to [requiresAuthMiddleware]. *)
Example gate_api_only :
  runGate (GatePredicate api_only) (callback_request None None) =
    [EvPredicate JUndefined; EvNext] /\
  runGate (GatePredicate api_only)
    (set_session None
       {| req_cookies := ∅; req_legacy_cookies := ∅;
          req_params := <["api" := "1"]> ∅; req_openidTokens := None;
          req_session := None; req_openid := None;
          req_isAuthenticated := false |}) =
    [EvPredicate (JStr "1"); EvRequiresAuth].
Proof. split; reflexivity. Qed.

(** ** The transient store *)

Lemma forget_frame key legacy r :
  req_params (forget key legacy r) = req_params r /\
  req_openidTokens (forget key legacy r) = req_openidTokens r /\
  req_session (forget key legacy r) = req_session r /\
  req_openid (forget key legacy r) = req_openid r /\
  req_isAuthenticated (forget key legacy r) = req_isAuthenticated r.
Proof. unfold forget. destruct legacy; simpl; auto. Qed.

Lemma forget_session key legacy r :
  req_session (forget key legacy r) = req_session r.
Proof. apply forget_frame. Qed.

Lemma forget_openidTokens key legacy r :
  req_openidTokens (forget key legacy r) = req_openidTokens r.
Proof. apply forget_frame. Qed.

(** Single use: once cleared, the entry reads as [undefined]. *)
Lemma transient_value_forget_eq key legacy r :
  transient_value legacy key (forget key legacy r) = None.
Proof.
  unfold transient_value, forget.
  destruct legacy; simpl; rewrite !lookup_delete_eq; reflexivity.
Qed.

Lemma transient_value_forget_ne key key' legacy r :
  key <> key' ->
  transient_value legacy key' (forget key legacy r) = transient_value legacy key' r.
Proof.
  intros Hne. unfold transient_value, forget.
  destruct legacy; simpl; rewrite !lookup_delete_ne by assumption; reflexivity.
Qed.

Lemma getOnce_twice key legacy w :
  let '(first, w1) := getOnce key legacy w in
  let '(second, _) := getOnce key legacy w1 in
  first = inr (transient_value legacy key (req w)) /\ second = inr None.
Proof.
  unfold getOnce. simpl. rewrite transient_value_forget_eq. auto.
Qed.

#[local] Arguments forget : simpl never.
#[local] Arguments transient_value : simpl never.

(** ** The exchange handler, path by path *)

Ltac unfold_M :=
  unfold exchange, finalize, contextMiddleware, openid_load, exec,
    try_catch, call, call_req, modify, throw, getOnce, next_once, next,
    cb_once, assign_session_claims, mbind, M_bind, mret, M_ret in *.

Ltac exchange_paths config env w :=
  unfold_M; simpl;
  destruct (getRedirectUri env) as [?e|?uri] eqn:?Huri; simpl;
  [| destruct (callbackParams (client env) (req w)) as [?e|?params] eqn:?Hparams; simpl;
     [| rewrite ?transient_value_forget_ne by discriminate;
        match goal with
        | |- context [callback ?c ?u ?p ?k] =>
            destruct (callback c u p k) as [?e|?ts] eqn:?Hcb
        end; simpl;
        [| destruct (truthy (appSessionSecret config)) eqn:?Hsecret; simpl;
           [ match goal with
             | |- context [ts_claims ?t] =>
                 destruct (ts_claims t) as [?e|?cl] eqn:?Hclaims
             end; simpl;
             [| rewrite ?forget_session;
                destruct (req_session (req w)) as [?sess|] eqn:?Hsess; simpl ]
           | ] ] ] ].

(** The guarded continuation is a no-op once the guard has fired. *)
Lemma next_once_fired arg w :
  guard_fired w = true -> next_once arg w = (inr tt, w).
Proof. intros H. unfold next_once. rewrite H. reflexivity. Qed.

Lemma next_once_all_fired args w :
  guard_fired w = true -> next_once_all args w = (inr tt, w).
Proof.
  intros H. induction args as [|a rest IH]; simpl; [reflexivity|].
  unfold mbind, M_bind. rewrite next_once_fired by assumption. exact IH.
Qed.

Lemma exchange_fires config env w :
  (exists arg,
     next_calls (exec (exchange config env) w) = next_calls w ++ [arg]) /\
  guard_fired (exec (exchange config env) w) = true.
Proof. exchange_paths config env w; eauto. Qed.

(** Without the guard every invocation reaches the continuation. *)
Example unguarded_twice arg1 arg2 w :
  next_calls (exec (next arg1 ;; next arg2) w) = next_calls w ++ [arg1; arg2].
Proof.
  unfold exec, next, modify, mbind, M_bind. simpl.
  rewrite <- app_assoc. reflexivity.
Qed.

Lemma dispatch_calls_length calls :
  length (dispatch_calls calls) = length calls.
Proof.
  destruct calls as [|[err|] rest]; simpl; rewrite ?length_map; reflexivity.
Qed.

(** C3, as the code has it: the single-invocation guard [cb(next).once()]
    wraps the continuation of the exchange handler, the one that hands
    control to the callback extension point or to the error chain.  The
    exchange handler invokes it exactly once on every path; the guard has
    then fired, so any further invocation through it changes nothing, and two
    invocations in a row (the success path followed by the error path) reach
    the continuation once, with the first argument.  The extension handler
    runs on the error-free invocation only, and the final handler runs when
    the extension handler's first invocation carries no error.  The
    continuation handed to the extension handler itself is Express's own
    [next], without a guard: every invocation the handler makes is
    dispatched, a second one included. *)
Theorem guard_on_exchange_continuation
    (config : Config) (env : Env) (w : World) (later : list (option Err)) :
  let w' := exec (exchange config env) w in
  let w1 := exec (exchange config env) (set_next_calls [] w) in
  (exists arg, next_calls w' = next_calls w ++ [arg]) /\
  length (next_calls w') = S (length (next_calls w)) /\
  guard_fired w' = true /\
  next_once_all later w' = (inr tt, w') /\
  (forall arg1 arg2,
     next_calls (exec (cb_once ;; next_once arg1 ;; next_once arg2) w) =
     next_calls w ++ [arg1]) /\
  (forall err, next_calls w1 = [Some err] ->
     extension_calls config env w = [] /\
     callbackRoute config env w = (Failed err, w1)) /\
  (next_calls w1 = [None] ->
     extension_calls config env w =
     v_calls (handleCallback config (req w1) (res w1)).1.1) /\
  (reaches_finalize (callbackRoute config env w).1 = true <->
   exists rest, extension_calls config env w = None :: rest) /\
  length (extension_dispatches config env w) =
    length (extension_calls config env w) /\
  (forall arg1 arg2 rest,
     extension_calls config env w = arg1 :: arg2 :: rest ->
     In (LeavesRoute arg2) (extension_dispatches config env w)).
Proof.
  destruct (exchange_fires config env w) as [[arg Hcalls] Hfired].
  cbv zeta. split; [eauto|]. split; [|split; [exact Hfired|split; [|split]]].
  - rewrite Hcalls, length_app. simpl. lia.
  - apply next_once_all_fired. exact Hfired.
  - intros arg1 arg2. unfold_M. reflexivity.
  - split; [|split; [|split; [|split]]].
    + intros err Herr. unfold extension_calls, callbackRoute. cbv zeta.
      rewrite Herr. split; reflexivity.
    + intros Hok. unfold extension_calls. cbv zeta. rewrite Hok. reflexivity.
    + unfold extension_calls, callbackRoute, run_handleCallback. cbv zeta.
      destruct (exchange_fires config env (set_next_calls [] w))
        as [[arg0 Hcalls0] _].
      cbn [next_calls set_next_calls app] in Hcalls0. rewrite Hcalls0.
      destruct arg0 as [err|]; cbn [fst reaches_finalize].
      * split; [discriminate|]. intros [rest H]. discriminate H.
      * destruct (handleCallback config _ _) as [[[calls answered] r] s].
        cbn [fst snd v_calls v_answered].
        destruct calls as [|[err|] more]; [destruct answered| |];
          cbn [fst reaches_finalize]; split;
          try discriminate; try (intros [rest H]; discriminate H); eauto.
    + unfold extension_dispatches. apply dispatch_calls_length.
    + intros arg1 arg2 rest Hext. unfold extension_dispatches. rewrite Hext.
      destruct arg1 as [err|]; simpl; auto.
Qed.

Lemma guard_on_exchange_continuation_witness :
  In (LeavesRoute None)
    (extension_dispatches twice_config sample_env
       (callback_world (Some "S1") (Some "/dashboard"))).
Proof.
  pose proof (guard_on_exchange_continuation twice_config sample_env
                (callback_world (Some "S1") (Some "/dashboard")) []) as H.
  cbv zeta in H. destruct H as (_ & _ & _ & _ & _ & _ & _ & _ & _ & H).
  apply (H None None []). reflexivity.
Defined.

(** C3 as stated fails: the continuation handed to the extension handler is
    not guarded.  A handler that calls [next()] twice has both invocations
    dispatched (the final handler runs, then the request leaves the route a
    second time); a handler that never calls it is not detected and leaves
    the request without a next step; and when the exchange fails the
    extension handler, and with it its continuation, is never reached. *)
Lemma extension_continuation_unguarded :
  (let w := callback_world (Some "S1") (Some "/dashboard") in
   extension_calls twice_config sample_env w = [None; None] /\
   extension_dispatches twice_config sample_env w =
     [RunsFinalize; LeavesRoute None]) /\
  (let w := callback_world (Some "S1") (Some "/dashboard") in
   extension_dispatches silent_config sample_env w = [] /\
   (callbackRoute silent_config sample_env w).1 = Stalled) /\
  (let w := callback_world (Some "WRONG") (Some "/dashboard") in
   extension_dispatches sample_config sample_env w = []) /\
  ~ (forall config env w, length (extension_dispatches config env w) = 1).
Proof.
  split; [vm_compute; auto|]. split; [vm_compute; auto|].
  split; [vm_compute; auto|].
  intros H.
  specialize (H twice_config sample_env
                (callback_world (Some "S1") (Some "/dashboard"))).
  vm_compute in H. discriminate H.
Qed.

(** ** Failure of the exchange *)

Lemma exchange_validation_failure config env w uri err :
  getRedirectUri env = inr uri ->
  validation_throws config env uri (req w) err ->
  next_calls (exec (exchange config env) w) =
    next_calls w ++ [Some (BadRequest (err_message err))] /\
  req_session (req (exec (exchange config env) w)) = req_session (req w) /\
  req_openidTokens (req (exec (exchange config env) w)) = req_openidTokens (req w) /\
  res_redirect (res (exec (exchange config env) w)) = res_redirect (res w).
Proof.
  intros Huri [Hparams | (params & Hparams & Hcb)]; unfold expected_checks in *.
  - unfold_M. simpl. rewrite Huri. simpl. rewrite Hparams. simpl. auto.
  - unfold_M. simpl. rewrite Huri. simpl. rewrite Hparams. simpl.
    rewrite transient_value_forget_ne by discriminate.
    rewrite Hcb. simpl.
    rewrite !forget_session, !forget_openidTokens. auto.
Qed.

(** C1: when callback-parameter parsing or the client's callback validation
    throws, the exchange handler hands a 400 (BadRequest) error carrying the
    thrown message to the continuation, the callback route fails with that
    error, and neither the session object nor [req.openidTokens] nor the
    response's redirect is touched. *)
Theorem callback_failure_is_bad_request
    (config : Config) (env : Env) (w : World) (uri : string) (err : Err) :
  getRedirectUri env = inr uri ->
  validation_throws config env uri (req w) err ->
  let w' := exec (exchange config env) w in
  let route := callbackRoute config env w in
  next_calls w' = next_calls w ++ [Some (BadRequest (err_message err))] /\
  route.1 = Failed (BadRequest (err_message err)) /\
  err_status (BadRequest (err_message err)) = Some 400%Z /\
  req_session (req w') = req_session (req w) /\
  req_session (req route.2) = req_session (req w) /\
  req_openidTokens (req route.2) = req_openidTokens (req w) /\
  res_redirect (res route.2) = res_redirect (res w).
Proof.
  intros Huri Hthrows.
  destruct (exchange_validation_failure config env w uri err Huri Hthrows)
    as (Hcalls & Hsess & _).
  destruct (exchange_validation_failure config env (set_next_calls [] w) uri err
              Huri Hthrows) as (Hcalls0 & Hsess0 & Htok0 & Hred0).
  simpl in Hcalls0, Hsess0, Htok0, Hred0.
  unfold callbackRoute. cbv zeta. rewrite Hcalls0. simpl.
  repeat split; assumption.
Qed.

Lemma callback_failure_is_bad_request_witness :
  (callbackRoute sample_config sample_env
     (callback_world (Some "WRONG") (Some "/dashboard"))).1 =
  Failed (BadRequest "state mismatch").
Proof.
  apply (callback_failure_is_bad_request sample_config sample_env
           (callback_world (Some "WRONG") (Some "/dashboard"))
           "https://app.example/callback" (mkErr None "state mismatch")).
  - reflexivity.
  - right. exists (req_params (callback_request (Some "WRONG") (Some "/dashboard"))).
    split; reflexivity.
Defined.

(** ** Consumption of the transient entries *)

Lemma exchange_cleared config env w :
  res_cleared (res (exec (exchange config env) w)) =
  res_cleared (res w) ++
    (if reaches_exchange env (req w) then ["nonce"; "state"] else []).
Proof.
  unfold reaches_exchange.
  exchange_paths config env w; rewrite <- ?app_assoc, ?app_nil_r; reflexivity.
Qed.

Lemma run_handleCallback_cleared config w :
  handler_keeps_transients config ->
  res_cleared (res (run_handleCallback config w).2) = res_cleared (res w).
Proof.
  intros Hkeep. unfold run_handleCallback.
  specialize (Hkeep (req w) (res w)).
  destruct (handleCallback config (req w) (res w)) as [[v r] s]. exact Hkeep.
Qed.

Lemma finalize_cleared config w :
  res_cleared (res (exec (finalize config) w)) = res_cleared (res w) ++ ["returnTo"].
Proof. unfold_M. reflexivity. Qed.

Lemma callbackRoute_cleared config env w :
  handler_keeps_transients config ->
  res_cleared (res (callbackRoute config env w).2) =
  res_cleared (res w) ++
    (if reaches_exchange env (req w) then ["nonce"; "state"] else []) ++
    (if reaches_finalize (callbackRoute config env w).1 then ["returnTo"] else []).
Proof.
  intros Hkeep. unfold callbackRoute. cbv zeta.
  pose proof (exchange_cleared config env (set_next_calls [] w)) as Hex.
  pose proof (run_handleCallback_cleared config
                (exec (exchange config env) (set_next_calls [] w)) Hkeep) as Hh.
  simpl in Hex.
  destruct (next_calls (exec (exchange config env) (set_next_calls [] w)))
    as [|[err|] rest]; simpl.
  - rewrite Hex, app_nil_r. reflexivity.
  - rewrite Hex, app_nil_r. reflexivity.
  - destruct (run_handleCallback config
                (exec (exchange config env) (set_next_calls [] w)))
      as [[calls answered] w2]; cbn [fst snd v_calls v_answered] in *.
    destruct calls as [|[err|] more]; [destruct answered| |];
      cbn [fst snd reaches_finalize].
    + rewrite Hh, Hex, app_nil_r. reflexivity.
    + rewrite Hh, Hex, app_nil_r. reflexivity.
    + rewrite Hh, Hex, app_nil_r. reflexivity.
    + rewrite finalize_cleared, Hh, Hex, <- app_assoc. reflexivity.
Qed.

(** C2, as the code has it: on a callback request whose redirect URI is
    resolved and whose parameters parse, [nonce] and [state] are each read
    and cleared exactly once, whether the exchange then succeeds or fails
    (and not at all when the handler does not get that far); [returnTo] is
    read and cleared exactly once when the request reaches the final handler,
    and not at all otherwise.  The extension handler is assumed not to
    consume transient entries itself. *)
Theorem transient_entries_consumed (config : Config) (env : Env) (w : World) :
  handler_keeps_transients config ->
  let route := callbackRoute config env w in
  let exchanged := if reaches_exchange env (req w) then 1 else 0 in
  consumed "nonce" route.2 = consumed "nonce" w + exchanged /\
  consumed "state" route.2 = consumed "state" w + exchanged /\
  consumed "returnTo" route.2 =
    consumed "returnTo" w + (if reaches_finalize route.1 then 1 else 0).
Proof.
  intros Hkeep. cbv zeta. unfold consumed.
  rewrite (callbackRoute_cleared config env w Hkeep), !count_occ_app.
  destruct (reaches_exchange env (req w)),
    (reaches_finalize (callbackRoute config env w).1); simpl; lia.
Qed.

Lemma transient_entries_consumed_witness :
  consumed "returnTo"
    (callbackRoute sample_config sample_env
       (callback_world (Some "S1") (Some "/dashboard"))).2 = 1.
Proof.
  apply (transient_entries_consumed sample_config sample_env
           (callback_world (Some "S1") (Some "/dashboard"))).
  intros r s. reflexivity.
Defined.

(** C2 as stated fails: when the exchange is rejected the route ends in the
    error chain and [returnTo] is never read, and when parameter parsing
    throws no transient entry is read at all. *)
Lemma transient_entries_not_always_consumed :
  (let w := callback_world (Some "WRONG") (Some "/dashboard") in
   let w' := (callbackRoute sample_config sample_env w).2 in
   consumed "nonce" w' = 1 /\ consumed "state" w' = 1 /\
   consumed "returnTo" w' = 0) /\
  (let w := callback_world (Some "S1") (Some "/dashboard") in
   let w' := (callbackRoute sample_config unparsable_env w).2 in
   consumed "nonce" w' = 0 /\ consumed "state" w' = 0 /\
   consumed "returnTo" w' = 0) /\
  ~ (forall config env w,
       let w' := (callbackRoute config env w).2 in
       consumed "nonce" w' = S (consumed "nonce" w) /\
       consumed "state" w' = S (consumed "state" w) /\
       consumed "returnTo" w' = S (consumed "returnTo" w)).
Proof.
  split; [vm_compute; auto|]. split; [vm_compute; auto|].
  intros H.
  specialize (H sample_config sample_env
                (callback_world (Some "WRONG") (Some "/dashboard"))).
  vm_compute in H. destruct H as (_ & _ & H). discriminate H.
Qed.

(** ** Claim filtering *)

Lemma filterClaims_cons claim filter (claims : gmap string JVal) :
  filterClaims (claim :: filter) claims = filterClaims filter (delete claim claims).
Proof. reflexivity. Qed.

Lemma filterClaims_lookup filter (claims : gmap string JVal) (k : string) :
  filterClaims filter claims !! k =
  if in_dec string_dec k filter then None else claims !! k.
Proof.
  revert claims. induction filter as [|claim filter IH]; intros claims.
  - reflexivity.
  - rewrite filterClaims_cons, IH.
    destruct (in_dec string_dec k filter) as [Hin|Hnin];
      destruct (in_dec string_dec k (claim :: filter)) as [Hin'|Hnin'];
      try reflexivity.
    + exfalso. apply Hnin'. right. exact Hin.
    + destruct Hin' as [->|Hin']; [apply lookup_delete_eq|contradiction].
    + apply lookup_delete_ne. intros ->. apply Hnin'. left. reflexivity.
Qed.

Lemma filterClaims_excluded filter (claims : gmap string JVal) k :
  In k filter -> filterClaims filter claims !! k = None.
Proof.
  intros Hin. rewrite filterClaims_lookup.
  destruct (in_dec string_dec k filter); [reflexivity|contradiction].
Qed.

Lemma filterClaims_kept filter (claims : gmap string JVal) k :
  ~ In k filter -> filterClaims filter claims !! k = claims !! k.
Proof.
  intros Hnin. rewrite filterClaims_lookup.
  destruct (in_dec string_dec k filter); [contradiction|reflexivity].
Qed.

Lemma filterClaims_idem filter (claims : gmap string JVal) :
  filterClaims filter (filterClaims filter claims) = filterClaims filter claims.
Proof.
  apply map_eq. intros k. rewrite !filterClaims_lookup.
  destruct (in_dec string_dec k filter); reflexivity.
Qed.

(** What a successful exchange leaves in the session when persistence is on. *)
Lemma exchange_success_session config env w tokenSet claims :
  truthy (appSessionSecret config) = true ->
  next_calls (exec (exchange config env) w) = next_calls w ++ [None] ->
  req_openidTokens (req (exec (exchange config env) w)) = Some tokenSet ->
  ts_claims tokenSet = inr claims ->
  req_session (req (exec (exchange config env) w)) =
    Some {| sess_claims := Some (filterClaims (identityClaimFilter config) claims) |}.
Proof.
  intros Hsecret Hcalls Htok Hclaims. revert Hcalls Htok.
  exchange_paths config env w; intros Hcalls Htok;
    try (apply app_inv_head in Hcalls; discriminate Hcalls);
    congruence.
Qed.

(** C4: with session persistence on, the claims a successful callback assigns
    into the session are the token set's claims without the excluded names:
    no excluded name is present, every other claim of the token set is
    present with its value, and filtering the result again changes nothing. *)
Theorem claim_filter_complete_idempotent
    (config : Config) (env : Env) (w : World)
    (tokenSet : TokenSet) (claims : gmap string JVal) :
  truthy (appSessionSecret config) = true ->
  next_calls (exec (exchange config env) w) = next_calls w ++ [None] ->
  req_openidTokens (req (exec (exchange config env) w)) = Some tokenSet ->
  ts_claims tokenSet = inr claims ->
  exists projected : gmap string JVal,
    req_session (req (exec (exchange config env) w)) =
      Some {| sess_claims := Some projected |} /\
    projected = filterClaims (identityClaimFilter config) claims /\
    (forall k, In k (identityClaimFilter config) -> projected !! k = None) /\
    (forall k, ~ In k (identityClaimFilter config) -> projected !! k = claims !! k) /\
    filterClaims (identityClaimFilter config) projected = projected.
Proof.
  intros Hsecret Hcalls Htok Hclaims.
  exists (filterClaims (identityClaimFilter config) claims).
  split; [eapply exchange_success_session; eassumption|].
  split; [reflexivity|].
  split; [intros k; apply filterClaims_excluded|].
  split; [intros k; apply filterClaims_kept|].
  apply filterClaims_idem.
Qed.

Lemma claim_filter_complete_idempotent_witness :
  exists projected : gmap string JVal,
    req_session (req (exec (exchange sample_config sample_env)
                        (callback_world (Some "S1") None))) =
      Some {| sess_claims := Some projected |} /\
    projected = filterClaims ["email"] sample_claims /\
    (forall k, In k ["email"] -> projected !! k = None) /\
    (forall k, ~ In k ["email"] -> projected !! k = sample_claims !! k) /\
    filterClaims ["email"] projected = projected.
Proof.
  apply (claim_filter_complete_idempotent sample_config sample_env
           (callback_world (Some "S1") None) sample_tokenSet sample_claims);
    reflexivity.
Defined.

Example filterClaims_sample :
  filterClaims ["email"] sample_claims = <["sub" := JStr "u1"]> ∅.
Proof. reflexivity. Qed.

(** ** The final redirect *)

Lemma finalize_redirect config w :
  res_redirect (res (exec (finalize config) w)) =
  Some (redirect_target config (req w)).
Proof. unfold_M. reflexivity. Qed.

Lemma callbackRoute_redirected config env w :
  reaches_finalize (callbackRoute config env w).1 = true ->
  callbackRoute config env w =
  (Redirected (Some (redirect_target config (req (finalize_entry config env w)))),
   exec (finalize config) (finalize_entry config env w)).
Proof.
  unfold callbackRoute, finalize_entry. cbv zeta.
  destruct (next_calls (exec (exchange config env) (set_next_calls [] w)))
    as [|[err|] rest]; cbn [fst snd reaches_finalize]; try discriminate.
  destruct (run_handleCallback config
              (exec (exchange config env) (set_next_calls [] w)))
    as [[calls answered] w2]; cbn [fst snd v_calls v_answered].
  destruct calls as [|[err|] more]; [destruct answered| |];
    cbn [fst snd reaches_finalize]; try discriminate.
  intros _. rewrite finalize_redirect. reflexivity.
Qed.

(** C6, as the code has it: a callback request that reaches the final handler
    is answered with a redirect; its target is the [returnTo] value read by
    [getOnce] in that handler when that value is a non-empty string, and the
    configured base URL when no value was stored or the stored value is the
    empty string. *)
Theorem finalize_redirects_to_returnTo (config : Config) (env : Env) (w : World) :
  reaches_finalize (callbackRoute config env w).1 = true ->
  let route := callbackRoute config env w in
  let stored := transient_value (legacySameSiteCookie config) "returnTo"
                  (req (finalize_entry config env w)) in
  (exists target, route.1 = Redirected (Some target) /\
                  res_redirect (res route.2) = Some target /\
                  target = redirect_target config (req (finalize_entry config env w))) /\
  (forall v, stored = Some v -> v <> EmptyString ->
     route.1 = Redirected (Some v)) /\
  (stored = None \/ stored = Some EmptyString ->
     route.1 = Redirected (Some (baseURL config))).
Proof.
  intros Hreach. cbv zeta.
  rewrite (callbackRoute_redirected config env w Hreach).
  cbn [fst snd]. rewrite finalize_redirect.
  unfold redirect_target, or_default.
  split; [eauto|]. split.
  - intros v -> Hv. apply String.eqb_neq in Hv. rewrite Hv. reflexivity.
  - intros [-> | ->]; reflexivity.
Qed.

Lemma finalize_redirects_to_returnTo_witness :
  (callbackRoute sample_config sample_env
     (callback_world (Some "S1") (Some "/dashboard"))).1 =
  Redirected (Some "/dashboard").
Proof.
  apply (proj1 (proj2 (finalize_redirects_to_returnTo sample_config sample_env
                         (callback_world (Some "S1") (Some "/dashboard")) eq_refl))).
  - reflexivity.
  - discriminate.
Defined.

(** C6 as stated fails for a stored [returnTo] that is the empty string: a
    value is stored and retrieved, yet the redirect goes to the base URL. *)
Lemma empty_returnTo_redirects_to_base :
  let w := callback_world (Some "S1") (Some EmptyString) in
  let stored := transient_value false "returnTo" (req w) in
  stored = Some EmptyString /\
  (getOnce "returnTo" false (finalize_entry sample_config sample_env w)).1 = inr (Some EmptyString) /\
  (callbackRoute sample_config sample_env w).1 =
    Redirected (Some "https://app.example") /\
  (callbackRoute sample_config sample_env w).1 <>
    Redirected (Some (returnTo_or_base stored (baseURL sample_config))).
Proof.
  cbv zeta. split; [reflexivity|]. split; [reflexivity|].
  split; [reflexivity|]. vm_compute. discriminate.
Qed.

(** ** Without a session secret *)

Lemma exchange_session_inert config env w :
  truthy (appSessionSecret config) = false ->
  req_session (req (exec (exchange config env) w)) = req_session (req w).
Proof.
  intros Hsecret.
  exchange_paths config env w; rewrite ?forget_session; congruence.
Qed.

Lemma finalize_session config w :
  req_session (req (exec (finalize config) w)) = req_session (req w).
Proof. unfold_M. simpl. apply forget_session. Qed.

Lemma contextMiddleware_session env w :
  req_session (req (exec (contextMiddleware env) w)) = req_session (req w).
Proof.
  unfold_M. simpl. destruct (load env (req_session (req w))); reflexivity.
Qed.

Lemma run_handleCallback_session config w :
  handler_keeps_session config ->
  req_session (req (run_handleCallback config w).2) = req_session (req w).
Proof.
  intros Hkeep. unfold run_handleCallback.
  specialize (Hkeep (req w) (res w)).
  destruct (handleCallback config (req w) (res w)) as [[v r] s]. exact Hkeep.
Qed.

(** C8: without a session secret the session middleware is not mounted, and
    neither the context middleware nor the exchange handler nor the final
    handler writes to the session object; the whole callback route leaves it
    as it was, whatever the outcome, as long as the extension handler does. *)
Theorem session_projection_inert (config : Config) (env : Env) (w : World) :
  truthy (appSessionSecret config) = false ->
  List.filter is_appSession (routerLayers config) = [] /\
  req_session (req (exec (contextMiddleware env) w)) = req_session (req w) /\
  req_session (req (exec (exchange config env) w)) = req_session (req w) /\
  req_session (req (exec (finalize config) w)) = req_session (req w) /\
  (handler_keeps_session config ->
   req_session (req (callbackRoute config env w).2) = req_session (req w)).
Proof.
  intros Hsecret.
  split; [|split; [apply contextMiddleware_session|
           split; [apply exchange_session_inert; exact Hsecret|
           split; [apply finalize_session|]]]].
  - unfold routerLayers. rewrite Hsecret, !List.filter_app.
    assert (List.filter is_appSession (gateLayers config) = []) as ->.
    { unfold gateLayers.
      destruct (truthy_required (required config)); [|reflexivity].
      destruct (required config); reflexivity. }
    destruct (truthy (routes config)); reflexivity.
  - intros Hkeep. unfold callbackRoute. cbv zeta.
    pose proof (exchange_session_inert config env (set_next_calls [] w) Hsecret) as Hex.
    pose proof (run_handleCallback_session config
                  (exec (exchange config env) (set_next_calls [] w)) Hkeep) as Hh.
    simpl in Hex.
    destruct (next_calls (exec (exchange config env) (set_next_calls [] w)))
      as [|[err|] rest]; cbn [fst snd]; try exact Hex.
    destruct (run_handleCallback config
                (exec (exchange config env) (set_next_calls [] w)))
      as [[calls answered] w2]; cbn [fst snd v_calls v_answered] in *.
    destruct calls as [|[err|] more]; [destruct answered| |]; cbn [fst snd];
      rewrite ?finalize_session; congruence.
Qed.

Lemma session_projection_inert_witness :
  req_session (req (callbackRoute sessionless_config sample_env
                      (callback_world (Some "S1") None)).2) =
  Some {| sess_claims := None |}.
Proof.
  apply (session_projection_inert sessionless_config sample_env
           (callback_world (Some "S1") None) eq_refl).
  intros r s. reflexivity.
Defined.

(** With a secret the session middleware is mounted first. *)
Example appSession_mounted :
  List.filter is_appSession (routerLayers sample_config) =
  [Use_appSession "identity" (JStr "a long, randomly generated secret")
     (JNum 604800) (JObj [])].
Proof. reflexivity. Qed.

(** ** The context middleware *)

(** C10: when [req.openid.load()] rejects, the context middleware hands the
    error to its continuation and then carries on: it defines [res.openid]
    and [req.isAuthenticated], invokes the continuation a second time, now
    without an error, and its body completes without throwing. *)
Theorem context_load_rejection_continues (env : Env) (w : World) (err : Err) :
  load env (req_session (req w)) = inl err ->
  let run := contextMiddleware env w in
  run.1 = inr tt /\
  next_calls run.2 = next_calls w ++ [Some err; None] /\
  res_openid (res run.2) = true /\
  req_isAuthenticated (req run.2) = true.
Proof.
  intros Hload. unfold_M. simpl. rewrite Hload. simpl.
  rewrite <- app_assoc. auto.
Qed.

Lemma context_load_rejection_continues_witness :
  next_calls (contextMiddleware undiscovered_env (callback_world None None)).2 =
  [Some (mkErr None "issuer discovery failed"); None].
Proof.
  apply (context_load_rejection_continues undiscovered_env
           (callback_world None None) (mkErr None "issuer discovery failed")).
  reflexivity.
Defined.

(** When the load succeeds the continuation is invoked once. *)
Example context_load_success :
  let run := contextMiddleware sample_env (callback_world None None) in
  next_calls run.2 = [None] /\ isAuthenticated (req run.2) = Some false.
Proof. split; reflexivity. Qed.

(** * Further properties of the router factory *)

(** ** Login and logout routes (auth.js, lines 54-70) *)

Lemma filter_handler_gate h config :
  List.filter (has_handler h) (gateLayers config) = [].
Proof.
  unfold gateLayers.
  destruct (truthy_required (required config)); [|reflexivity].
  destruct (required config); reflexivity.
Qed.

(** The login and logout routes exist exactly when [config.routes] is truthy;
    they are GET routes at the normalized configured paths whatever the
    response mode, the login route with the body parser in front of its
    handler, and the callback route is registered either way. *)
Theorem login_logout_routes (config : Config) :
  List.filter (has_handler H_login) (routerLayers config) =
    (if truthy (routes config)
     then [Route GET (enforceLeadingSlash (loginPath config)) [H_urlencoded; H_login]]
     else []) /\
  List.filter (has_handler H_logout) (routerLayers config) =
    (if truthy (routes config)
     then [Route GET (enforceLeadingSlash (logoutPath config)) [H_logout]]
     else []) /\
  length (List.filter is_route (routerLayers config)) =
    (if truthy (routes config) then 3 else 1).
Proof.
  unfold routerLayers. rewrite !List.filter_app, !filter_handler_gate.
  assert (List.filter is_route (gateLayers config) = []) as ->.
  { unfold gateLayers.
    destruct (truthy_required (required config)); [|reflexivity].
    destruct (required config); reflexivity. }
  destruct (truthy (appSessionSecret config)), (truthy (routes config));
    repeat split; reflexivity.
Qed.

(** ** Order of the layers (auth.js, lines 24-138) *)

(** When the factory returns a router, its layers come in a fixed order: at
    most one session layer, then the context middleware, then the routes,
    then at most one gate layer.  The gate therefore never sits in front of
    the login, logout and callback routes. *)
Theorem router_layer_order (getClient : Config -> option Err) (config : Config)
    (layers : list Layer) :
  auth getClient config = inr layers ->
  exists session routes gate,
    layers = session ++ Use_context :: routes ++ gate /\
    forallb is_appSession session = true /\ length session <= 1 /\
    forallb is_route routes = true /\
    forallb is_gate gate = true /\ length gate <= 1.
Proof.
  intros Hauth. apply auth_router in Hauth. destruct Hauth as [_ ->].
  exists (if truthy (appSessionSecret config)
          then [Use_appSession (appSessionName config) (appSessionSecret config)
                  (appSessionDuration config) (appSessionCookie config)]
          else []),
         ((if truthy (routes config)
           then [Route GET (enforceLeadingSlash (loginPath config))
                   [H_urlencoded; H_login];
                 Route GET (enforceLeadingSlash (logoutPath config)) [H_logout]]
           else []) ++
          [Route (callbackMethod config)
             (enforceLeadingSlash (redirectUriPath config)) callbackHandlers]),
         (gateLayers config).
  split; [unfold routerLayers; rewrite <- (app_assoc _ [_] (gateLayers config));
          reflexivity|].
  split; [destruct (truthy (appSessionSecret config)); reflexivity|].
  split; [destruct (truthy (appSessionSecret config)); simpl; lia|].
  split; [destruct (truthy (routes config)); reflexivity|].
  unfold gateLayers.
  destruct (truthy_required (required config)); [|simpl; split; [reflexivity|lia]].
  destruct (required config); simpl; split; (reflexivity || lia).
Qed.

Lemma router_layer_order_witness :
  exists session routes gate,
    routerLayers sample_config = session ++ Use_context :: routes ++ gate /\
    forallb is_appSession session = true /\ length session <= 1 /\
    forallb is_route routes = true /\
    forallb is_gate gate = true /\ length gate <= 1.
Proof.
  apply (router_layer_order (fun _ => None) sample_config). reflexivity.
Defined.

(** ** Path collisions (auth.js, lines 13-15) *)

(** Two configured paths are registered under the same path exactly when
    they are equal or differ by one leading slash that the normalization
    adds to the shorter one. *)
Theorem enforceLeadingSlash_collision (p q : string) :
  enforceLeadingSlash p = enforceLeadingSlash q <->
  p = q \/
  (starts_with_slash q = false /\ p = String "/"%char q) \/
  (starts_with_slash p = false /\ q = String "/"%char p).
Proof.
  rewrite !enforceLeadingSlash_normalized. unfold normalized_path.
  destruct (starts_with_slash p) eqn:Hp, (starts_with_slash q) eqn:Hq; split.
  - auto.
  - intros [H|[[H _]|[H _]]]; [exact H|discriminate|discriminate].
  - intros ->. auto.
  - intros [->|[[_ ->]|[H _]]]; [congruence|reflexivity|discriminate].
  - intros <-. auto.
  - intros [->|[[H _]|[_ ->]]]; [congruence|discriminate|reflexivity].
  - intros H. injection H as ->. auto.
  - intros [->|[[_ ->]|[_ ->]]]; [reflexivity|discriminate Hp|discriminate Hq].
Qed.

(** ** Errors raised around the validation (auth.js, lines 80-115) *)

(** When [res.openid.getRedirectUri()] throws, the error reaches the
    continuation as it was thrown (it is not turned into a 400), the client
    is not consulted, no transient entry is read, and the request is left as
    it was. *)
Theorem redirect_uri_failure_unwrapped
    (config : Config) (env : Env) (w : World) (err : Err) :
  getRedirectUri env = inl err ->
  let w' := exec (exchange config env) w in
  next_calls w' = next_calls w ++ [Some err] /\
  req w' = req w /\
  res w' = res w.
Proof.
  intros Huri. unfold_M. simpl. rewrite Huri. simpl. auto.
Qed.

Lemma redirect_uri_failure_unwrapped_witness :
  next_calls (exec (exchange sample_config unresolved_env)
                (callback_world (Some "S1") None)) =
  [Some (mkErr (Some 500%Z) "no redirect URI")].
Proof.
  apply (redirect_uri_failure_unwrapped sample_config unresolved_env
           (callback_world (Some "S1") None)
           (mkErr (Some 500%Z) "no redirect URI")).
  reflexivity.
Defined.

Lemma exchange_openidTokens config env w :
  req_openidTokens (req (exec (exchange config env) w)) =
  match validated config env (req w) with
  | Some tokenSet => Some tokenSet
  | None => req_openidTokens (req w)
  end.
Proof.
  unfold validated, expected_checks.
  exchange_paths config env w; rewrite ?forget_openidTokens; reflexivity.
Qed.

(** [req.openidTokens] is overwritten exactly when the validation returns:
    with the returned token set, on every later path of the handler, and not
    at all when the handler fails before or in the validation. *)
Theorem openidTokens_set_iff_validated (config : Config) (env : Env) (w : World) :
  req_openidTokens (req (exec (exchange config env) w)) =
  match validated config env (req w) with
  | Some tokenSet => Some tokenSet
  | None => req_openidTokens (req w)
  end.
Proof. apply exchange_openidTokens. Qed.

(** With a session secret set, a token set whose [claims()] throws makes the
    callback fail after the validation succeeded: the error reaches the
    continuation as thrown, [req.openidTokens] already holds the token set,
    and the session object is not written. *)
Theorem claims_failure_after_validation
    (config : Config) (env : Env) (w : World) (tokenSet : TokenSet) (err : Err) :
  truthy (appSessionSecret config) = true ->
  validated config env (req w) = Some tokenSet ->
  ts_claims tokenSet = inl err ->
  let w' := exec (exchange config env) w in
  next_calls w' = next_calls w ++ [Some err] /\
  req_openidTokens (req w') = Some tokenSet /\
  req_session (req w') = req_session (req w).
Proof.
  intros Hsecret Hval Hclaims. cbv zeta.
  rewrite exchange_openidTokens, Hval.
  revert Hval. unfold validated, expected_checks.
  exchange_paths config env w; intros Hval; try discriminate;
    injection Hval as ->; rewrite ?forget_session; try congruence.
  assert (e = err) as -> by congruence. auto.
Qed.

Lemma claims_failure_after_validation_witness :
  next_calls (exec (exchange sample_config code_flow_env)
                (callback_world (Some "S1") None)) =
  [Some (mkErr None "id_token not present in TokenSet")].
Proof.
  apply (claims_failure_after_validation sample_config code_flow_env
           (callback_world (Some "S1") None) opaque_tokenSet
           (mkErr None "id_token not present in TokenSet"));
    reflexivity.
Defined.

(** With a session secret set but no session object on the request, a
    validated callback fails with a [TypeError] (no status, not a 400);
    [req.openidTokens] holds the token set and the session stays absent. *)
Theorem missing_session_object_fails
    (config : Config) (env : Env) (w : World) (tokenSet : TokenSet)
    (claims : gmap string JVal) :
  truthy (appSessionSecret config) = true ->
  validated config env (req w) = Some tokenSet ->
  ts_claims tokenSet = inr claims ->
  req_session (req w) = None ->
  let w' := exec (exchange config env) w in
  (exists err, next_calls w' = next_calls w ++ [Some err] /\
               err_status err = None) /\
  req_openidTokens (req w') = Some tokenSet /\
  req_session (req w') = None.
Proof.
  intros Hsecret Hval Hclaims Hsess. cbv zeta.
  rewrite exchange_openidTokens, Hval.
  revert Hval. unfold validated, expected_checks.
  exchange_paths config env w; intros Hval; try discriminate;
    injection Hval as ->; rewrite ?forget_session; try congruence.
  eauto.
Qed.

Lemma missing_session_object_fails_witness :
  req_openidTokens (req (exec (exchange sample_config sample_env)
                           (unprepared_world (Some "S1") None))) =
  Some sample_tokenSet.
Proof.
  apply (missing_session_object_fails sample_config sample_env
           (unprepared_world (Some "S1") None) sample_tokenSet sample_claims);
    reflexivity.
Defined.

(** Without a session secret a validated callback always continues without an
    error: [tokenSet.claims()] is not called, so a token set without an ID
    token passes, and a missing session object does not matter. *)
Theorem validated_callback_without_secret
    (config : Config) (env : Env) (w : World) (tokenSet : TokenSet) :
  truthy (appSessionSecret config) = false ->
  validated config env (req w) = Some tokenSet ->
  let w' := exec (exchange config env) w in
  next_calls w' = next_calls w ++ [None] /\
  req_openidTokens (req w') = Some tokenSet /\
  req_session (req w') = req_session (req w).
Proof.
  intros Hsecret Hval. cbv zeta.
  rewrite exchange_openidTokens, Hval.
  revert Hval. unfold validated, expected_checks.
  exchange_paths config env w; intros Hval; try discriminate;
    rewrite ?forget_session; try congruence; auto.
Qed.

Lemma validated_callback_without_secret_witness :
  next_calls (exec (exchange sessionless_config code_flow_env)
                (unprepared_world (Some "S1") None)) = [None].
Proof.
  apply (validated_callback_without_secret sessionless_config code_flow_env
           (unprepared_world (Some "S1") None) opaque_tokenSet);
    reflexivity.
Defined.

Lemma exchange_success_char (config : Config) (env : Env) (w : World) :
  next_calls (exec (exchange config env) w) = next_calls w ++ [None] <->
  exists tokenSet,
    validated config env (req w) = Some tokenSet /\
    (truthy (appSessionSecret config) = true ->
     (exists claims, ts_claims tokenSet = inr claims) /\
     req_session (req w) <> None).
Proof.
  unfold validated, expected_checks.
  exchange_paths config env w; split;
    try (intros H; apply app_inv_head in H; discriminate H);
    try (intros (tokenSet & H & _); discriminate H).
  - intros (tokenSet & H & Hs). injection H as <-.
    destruct (Hs eq_refl) as [[claims Hc] _]. congruence.
  - intros _. exists ts. split; [reflexivity|].
    intros _. split; [eauto|discriminate].
  - reflexivity.
  - intros (tokenSet & H & Hs). injection H as <-.
    destruct (Hs eq_refl) as [_ Hn]. contradiction.
  - intros _. exists ts. split; [reflexivity|]. discriminate.
  - reflexivity.
Qed.

(** The exchange handler continues without an error exactly when the
    validation returns a token set and, if a session secret is set, the
    token set yields claims and the request carries a session object. *)
Theorem exchange_succeeds_iff (config : Config) (env : Env) (w : World) :
  next_calls (exec (exchange config env) w) = next_calls w ++ [None] <->
  exists tokenSet,
    validated config env (req w) = Some tokenSet /\
    (truthy (appSessionSecret config) = true ->
     (exists claims, ts_claims tokenSet = inr claims) /\
     req_session (req w) <> None).
Proof. apply exchange_success_char. Qed.


(** The exchange handler never answers the request itself and never touches
    what the context middleware set up: the redirect, [res.openid],
    [req.openid], [req.isAuthenticated] and the parsed parameters are the
    same after it on every path. *)
Theorem exchange_frame (config : Config) (env : Env) (w : World) :
  let w' := exec (exchange config env) w in
  res_redirect (res w') = res_redirect (res w) /\
  res_openid (res w') = res_openid (res w) /\
  req_openid (req w') = req_openid (req w) /\
  req_isAuthenticated (req w') = req_isAuthenticated (req w) /\
  req_params (req w') = req_params (req w).
Proof.
  pose proof (forget_frame "nonce" (legacySameSiteCookie config)) as Hn.
  pose proof (forget_frame "state" (legacySameSiteCookie config)) as Hs.
  exchange_paths config env w; repeat split; try reflexivity;
    try (rewrite (proj1 (proj2 (proj2 (proj2 (Hs _)))));
         apply (proj1 (proj2 (proj2 (proj2 (Hn _))))));
    try (rewrite (proj2 (proj2 (proj2 (proj2 (Hs _)))));
         apply (proj2 (proj2 (proj2 (proj2 (Hn _))))));
    try (rewrite (proj1 (Hs _)); apply (proj1 (Hn _))).
Qed.

(** ** The callback route as a whole (auth.js, lines 76-121) *)

Lemma callbackRoute_exchange_calls config env w :
  exists arg,
    next_calls (exec (exchange config env) (set_next_calls [] w)) = [arg].
Proof.
  destruct (exchange_fires config env (set_next_calls [] w)) as [[arg H] _].
  exists arg. exact H.
Qed.

(** The callback route leaves a request without a next step exactly when the
    exchange handler continued without an error and the extension handler
    returns without invoking its continuation and without answering.  The
    exchange handler itself always hands the request on. *)
Theorem callbackRoute_stalls_iff (config : Config) (env : Env) (w : World) :
  let w1 := exec (exchange config env) (set_next_calls [] w) in
  (callbackRoute config env w).1 = Stalled <->
  next_calls w1 = [None] /\
  (handleCallback config (req w1) (res w1)).1.1 = VSilent.
Proof.
  cbv zeta. unfold callbackRoute, run_handleCallback. cbv zeta.
  destruct (callbackRoute_exchange_calls config env w) as [arg ->].
  destruct arg as [err|]; cbn [fst].
  - split; [discriminate|]. intros [H _]. discriminate H.
  - destruct (handleCallback config _ _) as [[[calls answered] r] s].
    cbn [fst snd v_calls v_answered].
    destruct calls as [|[err|] more]; [destruct answered| |]; cbn [fst];
      unfold VSilent; split; try discriminate; try (intros [_ H]; discriminate H);
      auto.
Qed.

Lemma reaches_finalize_exchange config env w :
  reaches_finalize (callbackRoute config env w).1 = true ->
  next_calls (exec (exchange config env) (set_next_calls [] w)) = [None].
Proof.
  unfold callbackRoute. cbv zeta.
  destruct (callbackRoute_exchange_calls config env w) as [arg Harg].
  rewrite Harg. destruct arg as [err|]; cbn [fst reaches_finalize];
    [discriminate|].
  reflexivity.
Qed.

Lemma reaches_finalize_validated config env w :
  reaches_finalize (callbackRoute config env w).1 = true ->
  exists tokenSet,
    validated config env (req w) = Some tokenSet /\
    (truthy (appSessionSecret config) = true ->
     (exists claims, ts_claims tokenSet = inr claims) /\
     req_session (req w) <> None).
Proof.
  intros Hreach. apply reaches_finalize_exchange in Hreach.
  apply (exchange_success_char config env (set_next_calls [] w)).
  exact Hreach.
Qed.

(** On a callback that ends in the redirect, the transient entries are read
    and cleared in the order [nonce], [state], [returnTo], and nothing else
    is cleared (the extension handler is assumed not to consume any). *)
Theorem transient_entries_order (config : Config) (env : Env) (w : World) :
  handler_keeps_transients config ->
  reaches_finalize (callbackRoute config env w).1 = true ->
  res_cleared (res (callbackRoute config env w).2) =
  res_cleared (res w) ++ ["nonce"; "state"; "returnTo"].
Proof.
  intros Hkeep Hreach.
  rewrite (callbackRoute_cleared config env w Hkeep), Hreach.
  destruct (reaches_finalize_validated config env w Hreach) as (ts & Hval & _).
  unfold reaches_exchange. unfold validated in Hval.
  destruct (getRedirectUri env); [discriminate|].
  destruct (callbackParams (client env) (req w)); [discriminate|].
  reflexivity.
Qed.

Lemma transient_entries_order_witness :
  res_cleared (res (callbackRoute sample_config sample_env
                      (callback_world (Some "S1") (Some "/dashboard"))).2) =
  ["nonce"; "state"; "returnTo"].
Proof.
  apply (transient_entries_order sample_config sample_env
           (callback_world (Some "S1") (Some "/dashboard"))).
  - intros r s. reflexivity.
  - reflexivity.
Defined.

(** With a non-empty base URL the callback never redirects to the empty
    string: every redirect of the route carries a non-empty target. *)
Theorem redirect_never_empty (config : Config) (env : Env) (w : World) :
  baseURL config <> EmptyString ->
  reaches_finalize (callbackRoute config env w).1 = true ->
  exists target,
    (callbackRoute config env w).1 = Redirected (Some target) /\
    res_redirect (res (callbackRoute config env w).2) = Some target /\
    target <> EmptyString.
Proof.
  intros Hbase Hreach.
  rewrite (callbackRoute_redirected config env w Hreach). cbn [fst snd].
  rewrite finalize_redirect.
  exists (redirect_target config (req (finalize_entry config env w))).
  split; [reflexivity|]. split; [reflexivity|].
  unfold redirect_target, or_default.
  destruct (transient_value _ _ _) as [v|]; [|exact Hbase].
  destruct (String.eqb v EmptyString) eqn:E; [exact Hbase|].
  apply String.eqb_neq. exact E.
Qed.

Lemma redirect_never_empty_witness :
  exists target,
    (callbackRoute sample_config sample_env
       (callback_world (Some "S1") (Some EmptyString))).1 =
      Redirected (Some target) /\
    res_redirect (res (callbackRoute sample_config sample_env
                         (callback_world (Some "S1") (Some EmptyString))).2) =
      Some target /\
    target <> EmptyString.
Proof.
  apply (redirect_never_empty sample_config sample_env
           (callback_world (Some "S1") (Some EmptyString))).
  - discriminate.
  - reflexivity.
Defined.

(** End to end: when a callback ends in the redirect, a session secret is set
    and the extension handler leaves the session alone, the session holds the
    claims of the validated token set without the excluded names. *)
Theorem redirected_callback_session (config : Config) (env : Env) (w : World) :
  truthy (appSessionSecret config) = true ->
  handler_keeps_session config ->
  reaches_finalize (callbackRoute config env w).1 = true ->
  exists tokenSet claims,
    validated config env (req w) = Some tokenSet /\
    ts_claims tokenSet = inr claims /\
    req_session (req (callbackRoute config env w).2) =
      Some {| sess_claims :=
                Some (filterClaims (identityClaimFilter config) claims) |}.
Proof.
  intros Hsecret Hkeep Hreach.
  destruct (reaches_finalize_validated config env w Hreach)
    as (ts & Hval & Hs).
  destruct (Hs Hsecret) as [[claims Hclaims] _].
  exists ts, claims. split; [exact Hval|]. split; [exact Hclaims|].
  pose proof (reaches_finalize_exchange config env w Hreach) as Hcalls.
  rewrite (callbackRoute_redirected config env w Hreach). cbn [snd].
  rewrite finalize_session. unfold finalize_entry.
  rewrite (run_handleCallback_session config _ Hkeep).
  apply (exchange_success_session config env (set_next_calls [] w) ts claims);
    try assumption.
  pose proof (exchange_openidTokens config env (set_next_calls [] w)) as Htok.
  cbn [req set_next_calls] in Htok. rewrite Hval in Htok. exact Htok.
Qed.

Lemma redirected_callback_session_witness :
  exists tokenSet claims,
    validated sample_config sample_env
      (req (callback_world (Some "S1") None)) = Some tokenSet /\
    ts_claims tokenSet = inr claims /\
    req_session (req (callbackRoute sample_config sample_env
                        (callback_world (Some "S1") None)).2) =
      Some {| sess_claims := Some (filterClaims ["email"] claims) |}.
Proof.
  apply (redirected_callback_session sample_config sample_env
           (callback_world (Some "S1") None)).
  - reflexivity.
  - intros r s. reflexivity.
  - reflexivity.
Defined.

(** ** The context middleware on every request (auth.js, lines 40-52) *)

(** Whether or not the context load rejects, the context middleware ends by
    invoking its continuation without an error: once when the load resolves,
    and after the invocation carrying the error when it rejects.  Afterwards
    [res.openid] and [req.isAuthenticated] are defined, and
    [req.isAuthenticated()] returns the flag of the context in [req.openid]. *)
Theorem context_always_continues (env : Env) (w : World) :
  let run := contextMiddleware env w in
  run.1 = inr tt /\
  next_calls run.2 =
    next_calls w ++
    (match load env (req_session (req w)) with
     | inl err => [Some err]
     | inr _ => []
     end) ++ [None] /\
  res_openid (res run.2) = true /\
  (exists ctx, req_openid (req run.2) = Some ctx /\
               isAuthenticated (req run.2) = Some (ctx_isAuthenticated ctx)).
Proof.
  unfold_M. unfold isAuthenticated. simpl.
  destruct (load env (req_session (req w))) as [err|ctx]; simpl;
    rewrite <- ?app_assoc; repeat split; eauto.
Qed.

(** ** The exclusion list as a set (auth.js, lines 104-106) *)

(** Only the set of excluded names matters: two exclusion lists naming the
    same claims, in any order and with any repetition, leave the same claims
    in the session. *)
Theorem filterClaims_same_names
    (filter1 filter2 : list string) (claims : gmap string JVal) :
  (forall k, In k filter1 <-> In k filter2) ->
  filterClaims filter1 claims = filterClaims filter2 claims.
Proof.
  intros Hsame. apply map_eq. intros k. rewrite !filterClaims_lookup.
  destruct (in_dec string_dec k filter1) as [H1|H1],
           (in_dec string_dec k filter2) as [H2|H2]; try reflexivity.
  - exfalso. apply H2, Hsame, H1.
  - exfalso. apply H1, Hsame, H2.
Qed.

Lemma filterClaims_same_names_witness :
  filterClaims ["email"; "aud"; "email"] sample_claims =
  filterClaims ["aud"; "email"] sample_claims.
Proof.
  apply (filterClaims_same_names ["email"; "aud"; "email"] ["aud"; "email"]).
  intros k. simpl. tauto.
Defined.

(** Filtering never adds or changes a claim, and removes exactly the excluded
    names that the token set carries: the names left are those of the token
    set minus the exclusion list. *)
Theorem filterClaims_dom (filter : list string) (claims : gmap string JVal) :
  filterClaims filter claims ⊆ claims /\
  dom (filterClaims filter claims) = dom claims ∖ list_to_set filter.
Proof.
  split.
  - apply map_subseteq_spec. intros k v. rewrite filterClaims_lookup.
    destruct (in_dec string_dec k filter); [discriminate|auto].
  - apply set_eq. intros k.
    rewrite elem_of_difference, !elem_of_dom, elem_of_list_to_set,
      filterClaims_lookup, list_elem_of_In.
    destruct (in_dec string_dec k filter) as [Hin|Hnin]; split.
    + intros [v Hv]. discriminate Hv.
    + intros [_ Hn]. contradiction.
    + intros H. split; assumption.
    + intros [H _]. exact H.
Qed.

(** The three ways an extension handler can end, after a successful exchange:
    it answers the request, it fails, or it returns without doing either. *)
Example extension_handler_outcomes :
  let w := callback_world (Some "S1") (Some "/dashboard") in
  (callbackRoute (with_handleCallback (fun r s => (VEnd, r, s)) sample_config)
     sample_env w).1 = Answered /\
  (callbackRoute
     (with_handleCallback
        (fun r s => (VNextErr (mkErr (Some 403%Z) "forbidden"), r, s))
        sample_config)
     sample_env w).1 = Failed (mkErr (Some 403%Z) "forbidden") /\
  (callbackRoute silent_config sample_env w).1 = Stalled /\
  (callbackRoute twice_config sample_env w).1 = Redirected (Some "/dashboard").
Proof. vm_compute. auto. Qed.
